(** * SafeRoute AI: sensor simulation and risk-assessment orchestration

    A shallow embedding of [types.ts], [services/geminiService.ts] and the
    state logic of [App.tsx].

    - JavaScript numbers are IEEE-754 binary64 values: they are modelled by
      Rocq's primitive floats, whose operations round exactly as the
      JavaScript ones do.
    - A value that comes out of [JSON.parse] is dynamically typed: it is
      modelled by the inductive type [JSValue]. [JSON.parse] itself is a
      parameter.
    - [await] and [try]/[catch]/[finally] are modelled by an explicit
      [Completion] type (returned normally or threw).
    - React state ([useState]) is an explicit record that the handlers
      transform; console output and calls of the alert tone are recorded in
      a list of effects. *)

From Stdlib Require Import Bool ZArith List Ascii String Lia.
From Stdlib Require Import Floats.
Import ListNotations.

Local Open Scope bool_scope.
Local Open Scope string_scope.

Set Warnings "-register-all,-inexact-float".

(* ================================================================= *)
(** ** JavaScript built-ins used by the sources *)

Module JS.

Definition number := float.
Bind Scope float_scope with number.

(** [Math.max(a, b)]: NaN if either argument is NaN; [+0] counts as larger
    than [-0]. *)
Definition Math_max (a b : number) : number :=
  if is_nan a || is_nan b then nan
  else if (a <? b)%float then b
  else if (b <? a)%float then a
  else if get_sign a then b else a.

(** [Math.min(a, b)]: NaN if either argument is NaN; [-0] counts as smaller
    than [+0]. *)
Definition Math_min (a b : number) : number :=
  if is_nan a || is_nan b then nan
  else if (a <? b)%float then a
  else if (b <? a)%float then b
  else if get_sign a then a else b.

(** Values as they exist at run time after [JSON.parse]. An object is the
    list of its own properties. *)
Inductive JSValue : Type :=
| JNull
| JBool (b : bool)
| JNumber (x : number)
| JString (s : string)
| JArray (items : list JSValue)
| JObject (props : list (string * JSValue)).

Fixpoint own_property (props : list (string * JSValue)) (name : string)
  : option JSValue :=
  match props with
  | [] => None
  | (k, v) :: rest => if String.eqb k name then Some v else own_property rest name
  end.

(** How an evaluation ends: with a value, or by throwing. *)
Inductive Completion (A : Type) : Type :=
| Returned (a : A)
| Threw (message : string).
Arguments Returned {A} a.
Arguments Threw {A} message.

Definition bind {A B} (c : Completion A) (k : A -> Completion B) : Completion B :=
  match c with
  | Returned a => k a
  | Threw m => Threw m
  end.

(** [v.name] for a property name that no built-in prototype defines (the
    sources read [riskLevel] and [explanation] only): reading a property
    of [null] throws a TypeError, an object yields its own property, and
    everything else yields [undefined], here [None]. *)
Definition get_property (v : JSValue) (name : string)
  : Completion (option JSValue) :=
  match v with
  | JNull => Threw "TypeError: Cannot read properties of null"
  | JObject props => Returned (own_property props name)
  | _ => Returned None
  end.

(** ToBoolean. [None] stands for [undefined]. *)
Definition truthy (v : option JSValue) : bool :=
  match v with
  | None => false
  | Some JNull => false
  | Some (JBool b) => b
  | Some (JNumber x) => negb (is_zero x || is_nan x)
  | Some (JString s) => negb (String.eqb s "")
  | Some (JArray _) => true
  | Some (JObject _) => true
  end.

(** [a || b] where [b] is never [undefined]. *)
Definition or_else (a : option JSValue) (b : JSValue) : JSValue :=
  match a with
  | Some v => if truthy a then v else b
  | None => b
  end.

(** [v !== s] for a string [s]: strict inequality never converts. *)
Definition strict_neq_string (v : JSValue) (s : string) : bool :=
  match v with
  | JString t => negb (String.eqb t s)
  | _ => true
  end.

(** [text || fallback] for an optional string ([undefined] and the empty
    string are falsy). *)
Definition string_or_else (text : option string) (fallback : string) : string :=
  match text with
  | Some s => if String.eqb s "" then fallback else s
  | None => fallback
  end.

End JS.
Import JS.

(* ================================================================= *)
(** ** types.ts *)

Inductive DrivingMode : Type := TRAFFIC | HIGHWAY | DEPOT.

(** The members of the string enum [RiskLevel]. *)
Module RiskLevel.
Definition LOW : string := "LOW".
Definition MEDIUM : string := "MEDIUM".
Definition HIGH : string := "HIGH".
End RiskLevel.

Record SensorData : Type := mkSensorData {
  leftDistance : number;   (* cm *)
  rightDistance : number;  (* cm *)
  closingSpeed : number;   (* m/s *)
  vehicleSpeed : number;   (* km/h *)
  drivingMode : DrivingMode
}.

(** [AssessmentResult] as it exists at run time. The interface declares
    [riskLevel: RiskLevel] and [explanation: string]; both fields are filled
    from the parsed response ([resultJson] has type [any], and [riskLevel]
    goes through the type assertion [as RiskLevel], which compiles to
    nothing), so at run time they hold whatever value the response carried.
    [timestamp] is the integral millisecond count of [Date.now()]. *)
Record AssessmentResult : Type := mkAssessmentResult {
  riskLevel : JSValue;
  explanation : JSValue;
  timestamp : Z;
  data : SensorData
}.

(** The declared type of [riskLevel]: one of the three enum members. *)
Definition is_RiskLevel (v : JSValue) : Prop :=
  v = JString RiskLevel.LOW \/ v = JString RiskLevel.MEDIUM \/ v = JString RiskLevel.HIGH.

(** Console output and calls of the alert tone, in the order they happen. *)
Inductive Effect : Type :=
| ConsoleError (args : list string)
| CallPlayAlertTone (level : JSValue).

(* ================================================================= *)
(** ** services/geminiService.ts *)

(** How [await ai.models.generateContent(...)] ends: the promise rejects
    (network or transport error, non-2xx status), or it resolves to a
    response whose [text] getter yields a string or [undefined]. The prompt
    built from the reading only travels to the engine, and the engine's
    reply is an input of the model. *)
Inductive EngineReply : Type :=
| Rejected (reason : string)
| Resolved (text : option string).

Definition fallbackExplanation : string := "Unable to generate assessment.".

Section GeminiService.

(** [JSON.parse]: [None] when it throws a SyntaxError. For an object with a
    repeated key the parser is expected to list the surviving property
    first. *)
Variable JSON_parse : string -> option JSValue.

(** The body of the [try] block, after the [await]. *)
Definition assessSafetyRisk_try (reply : EngineReply) (now : Z) (data : SensorData)
  : Completion AssessmentResult :=
  match reply with
  | Rejected reason => Threw reason
  | Resolved text =>
      match JSON_parse (string_or_else text "{}") with
      | None => Threw "SyntaxError"
      | Some resultJson =>
          bind (get_property resultJson "riskLevel") (fun rl =>
          bind (get_property resultJson "explanation") (fun ex =>
          Returned {| riskLevel := or_else rl (JString RiskLevel.LOW);
                      explanation := or_else ex (JString fallbackExplanation);
                      timestamp := now;
                      data := data |}))
      end
  end.

(** [assessSafetyRisk]: whatever is thrown inside [try] is logged and
    replaced by one fixed error. [now] is the value of [Date.now()]. *)
Definition assessSafetyRisk (reply : EngineReply) (now : Z) (data : SensorData)
  : Completion AssessmentResult * list Effect :=
  match assessSafetyRisk_try reply now data with
  | Returned result => (Returned result, [])
  | Threw error =>
      (Threw "Failed to assess safety risk.",
       [ConsoleError ["Gemini API Error:"; error]])
  end.

End GeminiService.

(* ================================================================= *)
(** ** App.tsx *)

(** The component's [useState] cells. *)
Record AppState : Type := mkAppState {
  sensorData : SensorData;
  assessment : option AssessmentResult;
  history : list AssessmentResult;
  isAnalyzing : bool;
  autoSimulate : bool;
  audioEnabled : bool
}.

Definition initialState : AppState :=
  {| sensorData := {| leftDistance := 120%float; rightDistance := 115%float;
                      closingSpeed := 0.5%float; vehicleSpeed := 45%float;
                      drivingMode := TRAFFIC |};
     assessment := None;
     history := [];
     isAnalyzing := false;
     autoSimulate := false;
     audioEnabled := false |}.

Definition setSensorData (f : SensorData -> SensorData) (st : AppState) : AppState :=
  {| sensorData := f (sensorData st); assessment := assessment st;
     history := history st; isAnalyzing := isAnalyzing st;
     autoSimulate := autoSimulate st; audioEnabled := audioEnabled st |}.

Definition setAssessment (a : option AssessmentResult) (st : AppState) : AppState :=
  {| sensorData := sensorData st; assessment := a;
     history := history st; isAnalyzing := isAnalyzing st;
     autoSimulate := autoSimulate st; audioEnabled := audioEnabled st |}.

Definition setHistory (f : list AssessmentResult -> list AssessmentResult)
  (st : AppState) : AppState :=
  {| sensorData := sensorData st; assessment := assessment st;
     history := f (history st); isAnalyzing := isAnalyzing st;
     autoSimulate := autoSimulate st; audioEnabled := audioEnabled st |}.

Definition setIsAnalyzing (b : bool) (st : AppState) : AppState :=
  {| sensorData := sensorData st; assessment := assessment st;
     history := history st; isAnalyzing := b;
     autoSimulate := autoSimulate st; audioEnabled := audioEnabled st |}.

(** What [playAlertTone] makes audible. *)
Inductive Tone : Type :=
| UrgentBeep      (* square wave, 880 Hz rising to 1200 Hz, 0.3 s *)
| CautionChime.   (* sine wave, 440 Hz, 0.5 s *)

(** [playAlertTone]: silent when audio is disabled; a level that is neither
    HIGH nor MEDIUM creates an oscillator that is never started. The Web
    Audio calls are taken not to throw. *)
Definition playAlertTone (enabled : bool) (level : JSValue) : option Tone :=
  if negb enabled then None
  else if negb (strict_neq_string level RiskLevel.HIGH) then Some UrgentBeep
  else if negb (strict_neq_string level RiskLevel.MEDIUM) then Some CautionChime
  else None.

(** [[result, ...prev].slice(0, 20)] *)
Definition pushHistory (result : AssessmentResult) (prev : list AssessmentResult)
  : list AssessmentResult :=
  firstn 20 (result :: prev).

(** [handleAssessment] up to its [await]: the busy flag is raised. *)
Definition handleAssessment_begin (st : AppState) : AppState :=
  setIsAnalyzing true st.

(** [handleAssessment] from the moment [assessSafetyRisk] settles: the [try]
    continuation or the [catch] handler, then [finally]. The handler
    swallows the error, so the function itself always completes normally. *)
Definition handleAssessment_settle (outcome : Completion AssessmentResult)
  (st : AppState) : AppState * list Effect * Completion unit :=
  match outcome with
  | Returned result =>
      let st1 := setAssessment (Some result) st in
      let st2 := setHistory (pushHistory result) st1 in
      let fx := if strict_neq_string (riskLevel result) RiskLevel.LOW
                then [CallPlayAlertTone (riskLevel result)]
                else [] in
      (setIsAnalyzing false st2, fx, Returned tt)
  | Threw err =>
      (setIsAnalyzing false st, [ConsoleError [err]], Returned tt)
  end.

(** One whole call of [handleAssessment(data)] with nothing interleaved. *)
Definition handleAssessment (JSON_parse : string -> option JSValue)
  (reply : EngineReply) (now : Z) (data : SensorData) (st : AppState)
  : AppState * list Effect * Completion unit :=
  let st0 := handleAssessment_begin st in
  let '(outcome, fx1) := assessSafetyRisk JSON_parse reply now data in
  let '(st1, fx2, c) := handleAssessment_settle outcome st0 in
  (st1, (fx1 ++ fx2)%list, c).

(** Calls may overlap: what the state sees is a sequence of calls that
    begin and of calls that settle. *)
Inductive Event : Type :=
| Begun
| Settled (outcome : Completion AssessmentResult).

Definition step (st : AppState) (ev : Event) : AppState :=
  match ev with
  | Begun => handleAssessment_begin st
  | Settled outcome => fst (fst (handleAssessment_settle outcome st))
  end.

Definition run (st : AppState) (evs : list Event) : AppState :=
  fold_left step evs st.

(** The results of the calls that settled successfully, oldest first. *)
Fixpoint successes (evs : list Event) : list AssessmentResult :=
  match evs with
  | [] => []
  | Settled (Returned r) :: rest => r :: successes rest
  | _ :: rest => successes rest
  end.

(** The reading computed by one tick of the auto-simulation interval;
    [r1] .. [r4] are the four successive values of [Math.random()]. *)
Definition newData (prev : SensorData) (r1 r2 r3 r4 : number) : SensorData :=
  {| leftDistance :=
       Math_max 10 (Math_min 300 (leftDistance prev + (r1 * 40 - 20)));
     rightDistance :=
       Math_max 10 (Math_min 300 (rightDistance prev + (r2 * 40 - 20)));
     closingSpeed :=
       Math_max 0 (Math_min 15 (closingSpeed prev + (r3 * 4 - 2)));
     vehicleSpeed :=
       Math_max 0 (Math_min 100 (vehicleSpeed prev + (r4 * 15 - 7)));
     drivingMode := drivingMode prev |}%float.

(** One tick: the reading is replaced and an assessment of it begins. *)
Definition tick (r1 r2 r3 r4 : number) (st : AppState) : AppState :=
  handleAssessment_begin (setSensorData (fun prev => newData prev r1 r2 r3 r4) st).

(** [keyof SensorData] *)
Inductive SensorKey : Type :=
| K_leftDistance | K_rightDistance | K_closingSpeed | K_vehicleSpeed | K_drivingMode.

(** The value a key goes with. The parameter is declared
    [value: number | string]; every call site passes a number (the result of
    [parseInt] or [parseFloat], NaN included) for the four numeric keys and
    a member of [DrivingMode] for [drivingMode], and the model types the
    value by its key accordingly. *)
Definition SensorValue (key : SensorKey) : Type :=
  match key with
  | K_drivingMode => DrivingMode
  | _ => number
  end.

Definition getField (key : SensorKey) (s : SensorData) : SensorValue key :=
  match key with
  | K_leftDistance => leftDistance s
  | K_rightDistance => rightDistance s
  | K_closingSpeed => closingSpeed s
  | K_vehicleSpeed => vehicleSpeed s
  | K_drivingMode => drivingMode s
  end.

(** [{ ...prev, [key]: value }] *)
Definition withField (key : SensorKey) (value : SensorValue key) (prev : SensorData)
  : SensorData :=
  match key return SensorValue key -> SensorData with
  | K_leftDistance => fun v =>
      {| leftDistance := v; rightDistance := rightDistance prev;
         closingSpeed := closingSpeed prev; vehicleSpeed := vehicleSpeed prev;
         drivingMode := drivingMode prev |}
  | K_rightDistance => fun v =>
      {| leftDistance := leftDistance prev; rightDistance := v;
         closingSpeed := closingSpeed prev; vehicleSpeed := vehicleSpeed prev;
         drivingMode := drivingMode prev |}
  | K_closingSpeed => fun v =>
      {| leftDistance := leftDistance prev; rightDistance := rightDistance prev;
         closingSpeed := v; vehicleSpeed := vehicleSpeed prev;
         drivingMode := drivingMode prev |}
  | K_vehicleSpeed => fun v =>
      {| leftDistance := leftDistance prev; rightDistance := rightDistance prev;
         closingSpeed := closingSpeed prev; vehicleSpeed := v;
         drivingMode := drivingMode prev |}
  | K_drivingMode => fun v =>
      {| leftDistance := leftDistance prev; rightDistance := rightDistance prev;
         closingSpeed := closingSpeed prev; vehicleSpeed := vehicleSpeed prev;
         drivingMode := v |}
  end value.

Definition updateSensor (key : SensorKey) (value : SensorValue key) (st : AppState)
  : AppState :=
  setSensorData (withField key value) st.

(** A channel lies in the closed interval [[lo, hi]]. *)
Definition within (lo hi x : number) : bool :=
  ((lo <=? x) && (x <=? hi))%float.

Definition in_simulation_bounds (s : SensorData) : Prop :=
  within 10%float 300%float (leftDistance s) = true /\
  within 10%float 300%float (rightDistance s) = true /\
  within 0%float 15%float (closingSpeed s) = true /\
  within 0%float 100%float (vehicleSpeed s) = true.

(** None of the four numeric channels is NaN. *)
Definition numeric_channels_not_nan (s : SensorData) : Prop :=
  is_nan (leftDistance s) = false /\
  is_nan (rightDistance s) = false /\
  is_nan (closingSpeed s) = false /\
  is_nan (vehicleSpeed s) = false.

(** The four numeric channels are finite numbers: neither NaN nor an
    infinity. *)
Definition numeric_channels_finite (s : SensorData) : Prop :=
  is_finite (leftDistance s) = true /\
  is_finite (rightDistance s) = true /\
  is_finite (closingSpeed s) = true /\
  is_finite (vehicleSpeed s) = true.

(** The four random perturbations that [newData] adds are finite numbers.
    [Math.random()] lies in [[0, 1)], so the perturbations of a real tick
    lie in [[-20, 20)], [[-20, 20)], [[-2, 2)] and [[-7, 8)]. *)
Definition perturbations_finite (r1 r2 r3 r4 : number) : Prop :=
  is_finite (r1 * 40 - 20)%float = true /\
  is_finite (r2 * 40 - 20)%float = true /\
  is_finite (r3 * 4 - 2)%float = true /\
  is_finite (r4 * 15 - 7)%float = true.

(** A zero or a finite non-zero number, on the specification side. *)
Definition SFfinite (x : spec_float) : bool :=
  match x with
  | S754_zero _ | S754_finite _ _ _ => true
  | _ => false
  end.

(** The classification call fails: the request is rejected, or the text of
    the response does not parse. *)
Definition call_fails (JSON_parse : string -> option JSValue) (reply : EngineReply)
  : Prop :=
  match reply with
  | Rejected _ => True
  | Resolved text => JSON_parse (string_or_else text "{}") = None
  end.


(** [JSON.parse] cut down to a single text, which parses to [v]. It stands
    for the parser in the examples, where no other text is parsed. *)
Definition JSON_parse_on (text : string) (v : JSValue) : string -> option JSValue :=
  fun s => if String.eqb s text then Some v else None.

(** The double-quote character, to write JSON texts. *)
Definition dq : string := String (Ascii.ascii_of_nat 34) EmptyString.

(** The text [{"riskLevel":"Medium","explanation":"moderate clearance"}]
    and the object it parses to. *)
Definition mediumText : string :=
  "{" ++ dq ++ "riskLevel" ++ dq ++ ":" ++ dq ++ "Medium" ++ dq ++ ","
      ++ dq ++ "explanation" ++ dq ++ ":" ++ dq ++ "moderate clearance" ++ dq ++ "}".

Definition mediumJson : JSValue :=
  JObject [("riskLevel", JString "Medium");
           ("explanation", JString "moderate clearance")].

(** The text [{"riskLevel":"HIGH"}] and the object it parses to. *)
Definition highOnlyText : string :=
  "{" ++ dq ++ "riskLevel" ++ dq ++ ":" ++ dq ++ "HIGH" ++ dq ++ "}".

Definition highOnlyJson : JSValue :=
  JObject [("riskLevel", JString "HIGH")].

(** The text [{"riskLevel":"LOW","explanation":"clear"}] and the object
    it parses to. *)
Definition lowClearText : string :=
  "{" ++ dq ++ "riskLevel" ++ dq ++ ":" ++ dq ++ "LOW" ++ dq ++ ","
      ++ dq ++ "explanation" ++ dq ++ ":" ++ dq ++ "clear" ++ dq ++ "}".

Definition lowClearJson : JSValue :=
  JObject [("riskLevel", JString "LOW"); ("explanation", JString "clear")].


(** A result with a given risk level, for the examples. *)
Definition resultWith (level : string) (now : Z) : AssessmentResult :=
  {| riskLevel := JString level; explanation := JString "clear";
     timestamp := now; data := sensorData initialState |}.

(* ================================================================= *)
(** ** App.tsx: the interval callback, the alert tone and the rendering *)


(** Successive ticks on the reading alone, one quadruple of random values
    per tick. *)
Definition ticks (draws : list (number * number * number * number))
  (s : SensorData) : SensorData :=
  fold_left (fun prev '(r1, r2, r3, r4) => newData prev r1 r2 r3 r4) draws s.

Definition all_perturbations_finite
  (draws : list (number * number * number * number)) : Prop :=
  Forall (fun '(r1, r2, r3, r4) => perturbations_finite r1 r2 r3 r4) draws.

(** [[...history].reverse()], the data of both charts. *)
Definition chartData (st : AppState) : list AssessmentResult :=
  rev (history st).

(** [level === s] for an optional value; [None] is [undefined]. *)
Definition is_level (level : option JSValue) (s : string) : bool :=
  match level with
  | Some v => negb (strict_neq_string v s)
  | None => false
  end.

(** [assessment?.riskLevel] *)
Definition riskLevelOf (a : option AssessmentResult) : option JSValue :=
  option_map riskLevel a.

Definition getRiskColor (level : option JSValue) : string :=
  if is_level level RiskLevel.HIGH then
    "text-red-500 bg-red-500/10 border-red-500/50"
  else if is_level level RiskLevel.MEDIUM then
    "text-amber-500 bg-amber-500/10 border-amber-500/50"
  else if is_level level RiskLevel.LOW then
    "text-emerald-500 bg-emerald-500/10 border-emerald-500/50"
  else
    "text-slate-400 bg-slate-400/10 border-slate-400/50".

Inductive Icon : Type := AlertTriangle | AlertCircle | CheckCircle2.

(** [getRiskIcon]; [None] is [null]. *)
Definition getRiskIcon (level : option JSValue) : option Icon :=
  if is_level level RiskLevel.HIGH then Some AlertTriangle
  else if is_level level RiskLevel.MEDIUM then Some AlertCircle
  else if is_level level RiskLevel.LOW then Some CheckCircle2
  else None.

(** [s.split(' ')] *)
Fixpoint String_split_space (s : string) : list string :=
  match s with
  | EmptyString => [EmptyString]
  | String c rest =>
      if Ascii.eqb c " "%char then EmptyString :: String_split_space rest
      else match String_split_space rest with
           | first :: others => String c first :: others
           | [] => [String c EmptyString]
           end
  end.

(** [s.replace(pattern, replacement)] for two strings, the replacement
    without [$]: the first occurrence is replaced. *)
Fixpoint String_replace (pattern replacement s : string) : string :=
  if String.prefix pattern s then
    replacement
    ++ String.substring (String.length pattern)
         (String.length s - String.length pattern) s
  else
    match s with
    | EmptyString => EmptyString
    | String c rest => String c (String_replace pattern replacement rest)
    end.

(** [a.pop()] and [a[0]] as values; [None] is [undefined]. *)
Definition Array_pop (a : list string) : option string :=
  hd_error (rev a).

Definition Array_first (a : list string) : option string :=
  hd_error a.

(** An interpolated [${...}] of a string or [undefined]. *)
Definition interpolate (v : option string) : string :=
  match v with
  | Some s => s
  | None => "undefined"
  end.

(** [getRiskColor(level).split(' ').pop()]: the border class of the main
    risk display. *)
Definition riskBorderClass (level : option JSValue) : string :=
  interpolate (Array_pop (String_split_space (getRiskColor level))).

(** [getRiskColor(level).split(' ')[0]]: the text class of the level
    label. *)
Definition riskTextClass (level : option JSValue) : string :=
  interpolate (Array_first (String_split_space (getRiskColor level))).

(** [getRiskColor(item.riskLevel).split(' ')[0].replace('text-', 'bg-')]:
    the dot of a row of the assessment log. [None] is the TypeError of
    calling [replace] on [undefined]. *)
Definition riskDotClass (level : option JSValue) : option string :=
  option_map (String_replace "text-" "bg-")
    (Array_first (String_split_space (getRiskColor level))).

(** The full-screen overlay drawn over the page. *)
Inductive Overlay : Type :=
| RedPulse      (* 12 px red border, pulse of 1 s *)
| AmberPulse.   (* 8 px amber border, pulse of 2 s *)

Definition visualAlert (a : option AssessmentResult) : option Overlay :=
  if is_level (riskLevelOf a) RiskLevel.HIGH then Some RedPulse
  else if is_level (riskLevelOf a) RiskLevel.MEDIUM then Some AmberPulse
  else None.



(** The tones that the recorded calls of [playAlertTone] make audible,
    [enabled] being the value of [audioEnabled] that the callback closed
    over. *)
Definition tonesOf (enabled : bool) (effects : list Effect) : list Tone :=
  flat_map (fun e =>
              match e with
              | CallPlayAlertTone level =>
                  match playAlertTone enabled level with
                  | Some tone => [tone]
                  | None => []
                  end
              | ConsoleError _ => []
              end) effects.

(** *** [playAlertTone], call by call *)

Inductive AudioContextState : Type := Suspended | Running | Closed.

Inductive OscillatorType : Type := Square | Sine.

(** The calls that [playAlertTone] makes on the Web Audio API. *)
Inductive AudioCall : Type :=
| NewAudioContext
| CtxResume
| CreateOscillator
| CreateGain
| OscConnectGain
| GainConnectDestination
| OscSetType (type : OscillatorType)
| FrequencySetValueAtTime (value time : number)
| FrequencyExponentialRampToValueAtTime (value time : number)
| GainSetValueAtTime (value time : number)
| GainExponentialRampToValueAtTime (value time : number)
| OscStart
| OscStop (time : number).

(** The body of [playAlertTone]. [hasContext] tells whether
    [audioContextRef.current] is set; [state] and [currentTime] are what the
    context reports during the call. The result is the new [hasContext] and
    the calls made, in order. *)
Definition playAlertTone_calls (audioEnabled hasContext : bool)
  (state : AudioContextState) (currentTime : number) (level : JSValue)
  : bool * list AudioCall :=
  if negb audioEnabled then (hasContext, [])
  else
    let create := if hasContext then [] else [NewAudioContext] in
    let resume := match state with
                  | Suspended => [CtxResume]
                  | _ => []
                  end in
    let nodes := [CreateOscillator; CreateGain; OscConnectGain;
                  GainConnectDestination] in
    let tone :=
      if negb (strict_neq_string level RiskLevel.HIGH) then
        [OscSetType Square;
         FrequencySetValueAtTime 880 currentTime;
         FrequencyExponentialRampToValueAtTime 1200 (currentTime + 0.1);
         GainSetValueAtTime 0.1 currentTime;
         GainExponentialRampToValueAtTime 0.001 (currentTime + 0.3);
         OscStart;
         OscStop (currentTime + 0.3)]
      else if negb (strict_neq_string level RiskLevel.MEDIUM) then
        [OscSetType Sine;
         FrequencySetValueAtTime 440 currentTime;
         GainSetValueAtTime 0.1 currentTime;
         GainExponentialRampToValueAtTime 0.001 (currentTime + 0.5);
         OscStart;
         OscStop (currentTime + 0.5)]
      else [] in
    (true, (create ++ resume ++ nodes ++ tone)%list).

(** One invocation: the captured [audioEnabled], what the context reports,
    and the level. *)
Definition Invocation : Type := (bool * AudioContextState * number * JSValue)%type.

(** Successive invocations share [audioContextRef]. *)
Fixpoint playAlertTone_sequence (hasContext : bool) (invocations : list Invocation)
  : bool * list AudioCall :=
  match invocations with
  | [] => (hasContext, [])
  | (enabled, state, currentTime, level) :: rest =>
      let '(has1, calls1) :=
        playAlertTone_calls enabled hasContext state currentTime level in
      let '(has2, calls2) := playAlertTone_sequence has1 rest in
      (has2, (calls1 ++ calls2)%list)
  end.

Definition isNewAudioContext (c : AudioCall) : bool :=
  match c with
  | NewAudioContext => true
  | _ => false
  end.

Definition isOscStart (c : AudioCall) : bool :=
  match c with
  | OscStart => true
  | _ => false
  end.

Definition isOscStop (c : AudioCall) : bool :=
  match c with
  | OscStop _ => true
  | _ => false
  end.

Definition invocationEnabled (i : Invocation) : bool :=
  fst (fst (fst i)).

(** *** The auto-simulation effect and the browser's timers *)

(** The live intervals and the next identifier [setInterval] hands out. *)
Record Timers : Type := mkTimers {
  live : list nat;
  nextId : nat
}.

Definition setInterval (t : Timers) : nat * Timers :=
  (nextId t, {| live := nextId t :: live t; nextId := S (nextId t) |}).

(** [clearInterval(id)]; [None] is [undefined], which clears nothing. *)
Definition clearInterval (id : option nat) (t : Timers) : Timers :=
  match id with
  | Some i => {| live := List.remove Nat.eq_dec i (live t); nextId := nextId t |}
  | None => t
  end.

(** The body of the auto-simulation effect: it returns the value of
    [interval] that its cleanup closes over. *)
Definition autoSimulateEffect (autoSimulate : bool) (t : Timers)
  : option nat * Timers :=
  if autoSimulate then
    let '(id, t') := setInterval t in (Some id, t')
  else (None, t).

Definition autoSimulateCleanup (interval : option nat) (t : Timers) : Timers :=
  clearInterval interval t.

(** React runs the cleanup of the previous run before it runs the effect
    again, each time a dependency ([autoSimulate], [handleAssessment])
    changes. *)
Definition rerunEffect (s : option nat * Timers) (autoSimulate : bool)
  : option nat * Timers :=
  autoSimulateEffect autoSimulate (autoSimulateCleanup (fst s) (snd s)).

(** The component mounts with [autoSimulate] false and no interval of its
    own; [flags] are the values of [autoSimulate] at the later runs of the
    effect. *)
Definition effectRuns (t0 : Timers) (flags : list bool) : option nat * Timers :=
  fold_left rerunEffect flags (autoSimulateEffect false t0).

Definition unmount (s : option nat * Timers) : Timers :=
  autoSimulateCleanup (fst s) (snd s).

(* ================================================================= *)
(** * Properties *)

(** ** Binary64 comparison and arithmetic *)

Module FloatFacts.

Lemma SFcompare_antisym (x y : spec_float) :
  SFcompare y x = option_map CompOpp (SFcompare x y).
Proof.
  destruct x as [sx|sx| |sx mx ex], y as [sy|sy| |sy my ey]; simpl;
    try reflexivity;
    try (destruct sx; reflexivity);
    try (destruct sy; reflexivity);
    try (destruct sx, sy; reflexivity).
  rewrite (Z.compare_antisym ey ex).
  rewrite !Pos.compare_cont_spec; simpl.
  rewrite (Pos.compare_antisym my mx).
  destruct sx, sy; simpl; try reflexivity;
    destruct (ey ?= ex)%Z; simpl; try reflexivity;
    destruct (my ?= mx)%positive; reflexivity.
Qed.

Lemma not_nan_spec (x : float) : is_nan x = false -> Prim2SF x <> S754_nan.
Proof.
  unfold is_nan. rewrite eqb_spec. intros H E. rewrite E in H. discriminate H.
Qed.

Lemma spec_not_nan (x : float) : Prim2SF x <> S754_nan -> is_nan x = false.
Proof.
  unfold is_nan. rewrite eqb_spec. unfold SFeqb.
  intros H. destruct (Prim2SF x) as [s|s| |s m e]; try congruence; simpl.
  - reflexivity.
  - destruct s; reflexivity.
  - rewrite Z.compare_refl, Pos.compare_cont_refl. destruct s; reflexivity.
Qed.

Lemma SFcompare_defined (x y : spec_float) :
  x <> S754_nan -> y <> S754_nan -> exists c, SFcompare x y = Some c.
Proof.
  intros Hx Hy.
  destruct x, y; try congruence; simpl; eexists; reflexivity.
Qed.

(** [a < b] implies [a <= b]. *)
Lemma ltb_leb (a b : float) : (a <? b)%float = true -> (a <=? b)%float = true.
Proof.
  rewrite ltb_spec, leb_spec. unfold SFltb, SFleb.
  destruct (SFcompare (Prim2SF a) (Prim2SF b)) as [[ | | ]|]; congruence.
Qed.

(** On numbers other than NaN the order is total. *)
Lemma not_ltb_leb (a b : float) :
  is_nan a = false -> is_nan b = false ->
  (a <? b)%float = false -> (b <=? a)%float = true.
Proof.
  intros Ha Hb. apply not_nan_spec in Ha, Hb.
  rewrite ltb_spec, leb_spec. unfold SFltb, SFleb.
  rewrite (SFcompare_antisym (Prim2SF a) (Prim2SF b)).
  destruct (SFcompare_defined _ _ Ha Hb) as [c ->].
  destruct c; simpl; congruence.
Qed.

Lemma leb_not_nan_l (a b : float) : (a <=? b)%float = true -> is_nan a = false.
Proof.
  rewrite leb_spec. unfold SFleb. intros H. apply spec_not_nan. intros E.
  rewrite E in H. discriminate H.
Qed.

Lemma leb_not_nan_r (a b : float) : (a <=? b)%float = true -> is_nan b = false.
Proof.
  rewrite leb_spec. unfold SFleb. intros H. apply spec_not_nan. intros E.
  rewrite E in H. destruct (Prim2SF a); discriminate H.
Qed.

(** *** Rounding never invents a NaN *)

Lemma shr_1_nonneg (mrs : shr_record) :
  (0 <= shr_m mrs)%Z -> (0 <= shr_m (shr_1 mrs))%Z.
Proof.
  destruct mrs as [m r s]. destruct m as [|p|p]; simpl; intros H.
  - lia.
  - destruct p; simpl; lia.
  - lia.
Qed.

Lemma iter_shr_1_nonneg (p : positive) :
  forall mrs, (0 <= shr_m mrs)%Z -> (0 <= shr_m (iter_pos shr_1 p mrs))%Z.
Proof.
  induction p as [p IH|p IH|]; intros mrs H; simpl.
  - apply IH, IH, shr_1_nonneg, H.
  - apply IH, IH, H.
  - apply shr_1_nonneg, H.
Qed.

Lemma shr_fexp_nonneg (m e : Z) (l : location) :
  (0 <= m)%Z -> (0 <= shr_m (fst (shr_fexp prec emax m e l)))%Z.
Proof.
  intros H. unfold shr_fexp, shr.
  assert (H0 : (0 <= shr_m (shr_record_of_loc m l))%Z)
    by (destruct l as [|[ | | ]]; exact H).
  destruct (fexp prec emax (Zdigits2 m + e) - e)%Z; simpl; try exact H0.
  apply iter_shr_1_nonneg, H0.
Qed.

Lemma round_nearest_even_nonneg (m : Z) (l : location) :
  (0 <= m)%Z -> (0 <= round_nearest_even m l)%Z.
Proof.
  intros H. destruct l as [|[ | | ]]; simpl; try lia.
  destruct (Z.even m); lia.
Qed.

Lemma binary_round_aux_not_nan (sx : bool) (mx ex : Z) (lx : location) :
  (0 <= mx)%Z -> binary_round_aux prec emax sx mx ex lx <> S754_nan.
Proof.
  intros H. unfold binary_round_aux.
  pose proof (shr_fexp_nonneg mx ex lx H) as H1.
  destruct (shr_fexp prec emax mx ex lx) as [mrs' e']. simpl in H1.
  pose proof (shr_fexp_nonneg _ e' loc_Exact
                (round_nearest_even_nonneg _ (loc_of_shr_record mrs') H1)) as H2.
  destruct (shr_fexp prec emax
              (round_nearest_even (shr_m mrs') (loc_of_shr_record mrs')) e' loc_Exact)
    as [mrs'' e'']. simpl in H2.
  destruct (shr_m mrs'') as [|m|m].
  - discriminate.
  - destruct (e'' <=? emax - prec)%Z; discriminate.
  - lia.
Qed.

Lemma binary_normalize_not_nan (m e : Z) (szero : bool) :
  binary_normalize prec emax m e szero <> S754_nan.
Proof.
  unfold binary_normalize, binary_round.
  destruct m as [|p|p]; [discriminate| |];
    destruct (shl_align _ _ _) as [mz ez];
    apply binary_round_aux_not_nan; lia.
Qed.

Lemma is_finite_spec (x : float) : is_finite x = true -> SFfinite (Prim2SF x) = true.
Proof.
  unfold is_finite, is_infinity, is_nan.
  rewrite !eqb_spec, abs_spec.
  destruct (Prim2SF x) as [s|s| |s m e]; try reflexivity.
  - intros H. exfalso. revert H.
    replace (Prim2SF infinity) with (S754_infinity false) by reflexivity.
    destruct s; simpl; discriminate.
  - simpl. discriminate.
Qed.

Lemma is_finite_not_nan (x : float) : is_finite x = true -> is_nan x = false.
Proof.
  unfold is_finite. destruct (is_nan x); [discriminate | reflexivity].
Qed.

Lemma SFmul_finite (x y : spec_float) :
  SFfinite x = true -> SFfinite y = true -> SF64mul x y <> S754_nan.
Proof.
  destruct x, y; simpl; try discriminate.
  intros _ _. apply binary_round_aux_not_nan. lia.
Qed.

Lemma SFsub_finite_r (x y : spec_float) :
  x <> S754_nan -> SFfinite y = true -> SF64sub x y <> S754_nan.
Proof.
  destruct x, y; simpl; try discriminate; try congruence.
  - destruct s, s0; discriminate.
  - intros _ _. apply binary_normalize_not_nan.
Qed.

Lemma SFadd_finite_l (x y : spec_float) :
  SFfinite x = true -> y <> S754_nan -> SF64add x y <> S754_nan.
Proof.
  destruct x, y; simpl; try discriminate; try congruence.
  - destruct s, s0; discriminate.
  - intros _ _. apply binary_normalize_not_nan.
Qed.

Lemma SFadd_finite_r (x y : spec_float) :
  x <> S754_nan -> SFfinite y = true -> SF64add x y <> S754_nan.
Proof.
  destruct x, y; simpl; try discriminate; try congruence.
  - destruct s, s0; discriminate.
  - intros _ _. apply binary_normalize_not_nan.
Qed.

(** A number other than NaN plus a finite number is not NaN. *)
Lemma add_finite_not_nan (prev delta : float) :
  is_nan prev = false -> is_finite delta = true ->
  is_nan (prev + delta)%float = false.
Proof.
  intros Hp Hd. apply not_nan_spec in Hp. apply is_finite_spec in Hd.
  apply spec_not_nan. rewrite add_spec. apply SFadd_finite_r; assumption.
Qed.

(** [prev + (r * scale - offset)] is a number whenever [prev], [r], [scale]
    and [offset] are finite. *)
Lemma perturbed_not_nan (prev r scale offset : float) :
  is_finite prev = true -> is_finite r = true ->
  is_finite scale = true -> is_finite offset = true ->
  is_nan (prev + (r * scale - offset))%float = false.
Proof.
  intros Hp Hr Hs Ho.
  apply is_finite_spec in Hp, Hr, Hs, Ho.
  apply spec_not_nan.
  rewrite add_spec, sub_spec, mul_spec.
  apply SFadd_finite_l; [exact Hp|].
  apply SFsub_finite_r; [|exact Ho].
  apply SFmul_finite; assumption.
Qed.

(** A NaN operand makes the sum NaN. *)
Lemma add_nan_l (x y : float) : is_nan x = true -> is_nan (x + y)%float = true.
Proof.
  intros H.
  destruct (is_nan (x + y)%float) eqn:E; [reflexivity|].
  apply not_nan_spec in E. rewrite add_spec in E.
  destruct (Prim2SF x) eqn:Ex; try (exfalso; apply E; reflexivity).
  all: assert (Hx : is_nan x = false) by (apply spec_not_nan; rewrite Ex; discriminate);
    congruence.
Qed.

End FloatFacts.

(** ** [Math.max(lo, Math.min(hi, y))] *)

Section Clamp.

Variables lo hi : number.
Hypothesis lo_lo : (lo <=? lo)%float = true.
Hypothesis hi_hi : (hi <=? hi)%float = true.
Hypothesis lo_hi : (lo <=? hi)%float = true.

Lemma Math_min_below (y : number) :
  is_nan y = false ->
  is_nan (Math_min hi y) = false /\ (Math_min hi y <=? hi)%float = true.
Proof.
  intros Hy.
  pose proof (FloatFacts.leb_not_nan_l _ _ hi_hi) as Hhi.
  unfold Math_min. rewrite Hhi, Hy. simpl.
  destruct (hi <? y)%float eqn:E1; [split; assumption|].
  pose proof (FloatFacts.not_ltb_leb _ _ Hhi Hy E1) as Hle.
  destruct (y <? hi)%float eqn:E2; [split; assumption|].
  destruct (get_sign hi); split; assumption.
Qed.

Lemma Math_max_within (m : number) :
  is_nan m = false -> (m <=? hi)%float = true ->
  within lo hi (Math_max lo m) = true.
Proof.
  intros Hm Hmhi.
  pose proof (FloatFacts.leb_not_nan_l _ _ lo_lo) as Hlo.
  unfold Math_max, within. rewrite Hlo, Hm. simpl.
  destruct (lo <? m)%float eqn:E1.
  - rewrite (FloatFacts.ltb_leb _ _ E1), Hmhi. reflexivity.
  - destruct (m <? lo)%float eqn:E2.
    + rewrite lo_lo, lo_hi. reflexivity.
    + destruct (get_sign lo).
      * rewrite (FloatFacts.not_ltb_leb _ _ Hm Hlo E2), Hmhi. reflexivity.
      * rewrite lo_lo, lo_hi. reflexivity.
Qed.

(** Clamping a number other than NaN lands in [[lo, hi]]. *)
Lemma clamp_within (y : number) :
  is_nan y = false -> within lo hi (Math_max lo (Math_min hi y)) = true.
Proof.
  intros Hy. destruct (Math_min_below y Hy) as [H1 H2].
  apply Math_max_within; assumption.
Qed.

(** Clamping NaN yields NaN, which lies in no interval. *)
Lemma clamp_nan (y : number) :
  is_nan y = true -> is_nan (Math_max lo (Math_min hi y)) = true.
Proof.
  intros Hy. unfold Math_max, Math_min. rewrite Hy.
  rewrite orb_true_r. replace (is_nan nan) with true by reflexivity.
  rewrite orb_true_r. reflexivity.
Qed.

End Clamp.

(* ================================================================= *)
(** ** Simulation Driver *)

(** X12: a tick never repairs a NaN: a numeric channel that is NaN before
    the tick is NaN after it, whatever the random values. *)
Lemma newData_keeps_nan (prev : SensorData) (r1 r2 r3 r4 : number) :
  (is_nan (leftDistance prev) = true ->
   is_nan (leftDistance (newData prev r1 r2 r3 r4)) = true) /\
  (is_nan (rightDistance prev) = true ->
   is_nan (rightDistance (newData prev r1 r2 r3 r4)) = true) /\
  (is_nan (closingSpeed prev) = true ->
   is_nan (closingSpeed (newData prev r1 r2 r3 r4)) = true) /\
  (is_nan (vehicleSpeed prev) = true ->
   is_nan (vehicleSpeed (newData prev r1 r2 r3 r4)) = true).
Proof.
  repeat split; intros H; simpl; apply clamp_nan, FloatFacts.add_nan_l, H.
Qed.




(** The same bound for finite channels and finite values of
    [Math.random()], whatever the perturbations come to. *)
Lemma tick_within_simulation_bounds_finite
  (prev : SensorData) (r1 r2 r3 r4 : number) :
  numeric_channels_finite prev ->
  is_finite r1 = true -> is_finite r2 = true ->
  is_finite r3 = true -> is_finite r4 = true ->
  in_simulation_bounds (newData prev r1 r2 r3 r4).
Proof.
  intros (Hl & Hr & Hc & Hv) H1 H2 H3 H4.
  unfold in_simulation_bounds; simpl.
  repeat split;
    apply clamp_within; try reflexivity;
    apply FloatFacts.perturbed_not_nan; auto.
Qed.

(** An infinite channel is clamped like any other number. *)
Example tick_clamps_infinity :
  newData {| leftDistance := infinity; rightDistance := neg_infinity;
             closingSpeed := 25; vehicleSpeed := 120;
             drivingMode := HIGHWAY |} 0.5 0.5 0.5 0.5
  = {| leftDistance := 300; rightDistance := 10;
       closingSpeed := 15; vehicleSpeed := 100;
       drivingMode := HIGHWAY |}%float.
Proof.
  reflexivity.
Qed.

(** The extreme values of [Math.random()]: 0, and the largest number below
    1, from a reading at the lower and upper bounds. *)
Example tick_at_extremes :
  newData {| leftDistance := 10; rightDistance := 300;
             closingSpeed := 0; vehicleSpeed := 100;
             drivingMode := DEPOT |} 0 0x1.fffffffffffffp-1 0 0x1.fffffffffffffp-1
  = {| leftDistance := 10; rightDistance := 300;
       closingSpeed := 0; vehicleSpeed := 100;
       drivingMode := DEPOT |}%float.
Proof.
  reflexivity.
Qed.

(** C7: a tick leaves [drivingMode] as it was, in the reading it computes
    and in the sensor state it stores; the reading has no field besides
    [drivingMode] and the four numeric channels. *)
Theorem tick_preserves_drivingMode
  (st : AppState) (prev : SensorData) (r1 r2 r3 r4 : number) :
  drivingMode (newData prev r1 r2 r3 r4) = drivingMode prev /\
  drivingMode (sensorData (tick r1 r2 r3 r4 st)) = drivingMode (sensorData st) /\
  sensorData (tick r1 r2 r3 r4 st) =
    {| leftDistance := leftDistance (newData (sensorData st) r1 r2 r3 r4);
       rightDistance := rightDistance (newData (sensorData st) r1 r2 r3 r4);
       closingSpeed := closingSpeed (newData (sensorData st) r1 r2 r3 r4);
       vehicleSpeed := vehicleSpeed (newData (sensorData st) r1 r2 r3 r4);
       drivingMode := drivingMode (sensorData st) |}.
Proof.
  repeat split.
Qed.

(* ================================================================= *)
(** ** Sensor State Holder *)

(** C8: [updateSensor key value] stores [value] as it is in the field
    [key], whatever the value, and leaves every other field of the reading
    unchanged. *)
Theorem updateSensor_replaces_one_field
  (key : SensorKey) (value : SensorValue key) (st : AppState) :
  getField key (sensorData (updateSensor key value st)) = value /\
  forall other : SensorKey, other <> key ->
    getField other (sensorData (updateSensor key value st))
    = getField other (sensorData st).
Proof.
  split.
  - destruct key; reflexivity.
  - intros other Hne. destruct key, other; try reflexivity; congruence.
Qed.

(** No validation: a NaN, a negative or an out-of-range number is stored
    like any other. *)
Example updateSensor_stores_out_of_range :
  leftDistance (sensorData (updateSensor K_leftDistance (-1)%float initialState))
    = (-1)%float /\
  vehicleSpeed (sensorData (updateSensor K_vehicleSpeed 500%float initialState))
    = 500%float.
Proof.
  split; reflexivity.
Qed.

(** [updateSensor] touches the reading only. *)
Lemma updateSensor_frame (key : SensorKey) (value : SensorValue key) (st : AppState) :
  assessment (updateSensor key value st) = assessment st /\
  history (updateSensor key value st) = history st /\
  isAnalyzing (updateSensor key value st) = isAnalyzing st.
Proof.
  repeat split.
Qed.

(* ================================================================= *)
(** ** Classification call ([assessSafetyRisk]) *)

Section AssessSafetyRisk.

Variable JSON_parse : string -> option JSValue.

(** A failing call is logged and surfaces as one fixed error. *)
Lemma assessSafetyRisk_fails (reply : EngineReply) (now : Z) (reading : SensorData) :
  call_fails JSON_parse reply ->
  exists error,
    assessSafetyRisk JSON_parse reply now reading
    = (Threw "Failed to assess safety risk.",
       [ConsoleError ["Gemini API Error:"; error]]).
Proof.
  unfold call_fails, assessSafetyRisk, assessSafetyRisk_try.
  destruct reply as [reason|text]; intros H.
  - exists reason. reflexivity.
  - rewrite H. exists "SyntaxError". reflexivity.
Qed.

(** The result built from a parsed response other than [null]. *)
Lemma assessSafetyRisk_parsed
  (text : option string) (v : JSValue) (now : Z) (reading : SensorData) :
  JSON_parse (string_or_else text "{}") = Some v ->
  v <> JNull ->
  exists rl ex,
    get_property v "riskLevel" = Returned rl /\
    get_property v "explanation" = Returned ex /\
    assessSafetyRisk JSON_parse (Resolved text) now reading
    = (Returned {| riskLevel := or_else rl (JString RiskLevel.LOW);
                   explanation := or_else ex (JString fallbackExplanation);
                   timestamp := now;
                   data := reading |}, []).
Proof.
  intros Hparse Hnull.
  unfold assessSafetyRisk, assessSafetyRisk_try. rewrite Hparse.
  destruct v; try congruence; simpl; eexists; eexists; repeat split.
Qed.


End AssessSafetyRisk.




(** The empty object: LOW and the fallback text. *)
Example empty_object_defaults :
  assessSafetyRisk (JSON_parse_on "{}" (JObject []))
    (Resolved (Some "{}")) 1700000000000 (sensorData initialState)
  = (Returned {| riskLevel := JString "LOW";
                 explanation := JString "Unable to generate assessment.";
                 timestamp := 1700000000000;
                 data := sensorData initialState |}, []).
Proof.
  reflexivity.
Qed.

(** A field that is present is kept, so a response that is missing only
    [explanation] keeps the risk level it carries. *)
Example missing_explanation_keeps_riskLevel :
  fst (assessSafetyRisk (JSON_parse_on highOnlyText highOnlyJson)
         (Resolved (Some highOnlyText)) 0 (sensorData initialState))
  = Returned {| riskLevel := JString "HIGH";
                explanation := JString "Unable to generate assessment.";
                timestamp := 0;
                data := sensorData initialState |}.
Proof.
  reflexivity.
Qed.

(** C10: when the call succeeds and the response text is absent or empty,
    [assessSafetyRisk] parses [{}] instead, raises no error and returns
    LOW with the fallback explanation, exactly as for a response whose text
    is [{}]. *)
Theorem empty_text_defaults
  (JSON_parse : string -> option JSValue)
  (text : option string) (now : Z) (reading : SensorData) :
  JSON_parse "{}" = Some (JObject []) ->
  text = None \/ text = Some "" ->
  assessSafetyRisk JSON_parse (Resolved text) now reading
  = (Returned {| riskLevel := JString RiskLevel.LOW;
                 explanation := JString fallbackExplanation;
                 timestamp := now;
                 data := reading |}, []) /\
  assessSafetyRisk JSON_parse (Resolved text) now reading
  = assessSafetyRisk JSON_parse (Resolved (Some "{}")) now reading.
Proof.
  intros Hparse Htext.
  assert (E : string_or_else text "{}" = "{}")
    by (destruct Htext as [-> | ->]; reflexivity).
  unfold assessSafetyRisk, assessSafetyRisk_try.
  rewrite E. simpl string_or_else. rewrite Hparse. simpl.
  split; reflexivity.
Qed.

Lemma empty_text_defaults_witness :
  JSON_parse_on "{}" (JObject []) "{}" = Some (JObject []) /\
  (@None string = None \/ @None string = Some "") /\
  assessSafetyRisk (JSON_parse_on "{}" (JObject [])) (Resolved None) 0
    (sensorData initialState)
  = (Returned {| riskLevel := JString RiskLevel.LOW;
                 explanation := JString fallbackExplanation;
                 timestamp := 0;
                 data := sensorData initialState |}, []).
Proof.
  assert (H1 : JSON_parse_on "{}" (JObject []) "{}" = Some (JObject []))
    by reflexivity.
  assert (H2 : @None string = None \/ @None string = Some "")
    by (left; reflexivity).
  split; [exact H1|]. split; [exact H2|].
  exact (proj1 (empty_text_defaults (JSON_parse_on "{}" (JObject []))
                  None 0 (sensorData initialState) H1 H2)).
Defined.

(** *** The risk level of a result *)

(** [riskLevel] is copied from the response whenever it is truthy, and is
    LOW otherwise. *)
Lemma riskLevel_of_result
  (JSON_parse : string -> option JSValue)
  (text : option string) (now : Z) (reading : SensorData) (result : AssessmentResult) :
  fst (assessSafetyRisk JSON_parse (Resolved text) now reading) = Returned result ->
  exists v rl,
    JSON_parse (string_or_else text "{}") = Some v /\
    get_property v "riskLevel" = Returned rl /\
    riskLevel result = or_else rl (JString RiskLevel.LOW).
Proof.
  unfold assessSafetyRisk, assessSafetyRisk_try.
  destruct (JSON_parse (string_or_else text "{}")) as [v|]; [|discriminate].
  destruct (get_property v "riskLevel") as [rl|] eqn:Hrl; [|discriminate].
  destruct (get_property v "explanation") as [ex|] eqn:Hex; [|discriminate].
  simpl. intros H. injection H as <-.
  exists v, rl. repeat split. exact Hrl.
Qed.

(** X3: when the response is an object whose [riskLevel] is one of the
    three levels, or is missing, every result that [assessSafetyRisk]
    returns for it has one of the three levels. *)
Lemma riskLevel_in_enum_when_engine_complies
  (JSON_parse : string -> option JSValue)
  (text : option string) (now : Z) (reading : SensorData) (result : AssessmentResult)
  (props : list (string * JSValue)) :
  JSON_parse (string_or_else text "{}") = Some (JObject props) ->
  match own_property props "riskLevel" with
  | Some v => is_RiskLevel v
  | None => True
  end ->
  fst (assessSafetyRisk JSON_parse (Resolved text) now reading) = Returned result ->
  is_RiskLevel (riskLevel result).
Proof.
  intros Hparse Hlevel Hres.
  destruct (riskLevel_of_result _ _ _ _ _ Hres) as (v & rl & Hv & Hrl & ->).
  rewrite Hparse in Hv. injection Hv as <-. simpl in Hrl. injection Hrl as <-.
  destruct (own_property props "riskLevel") as [w|]; simpl.
  - destruct Hlevel as [-> | [-> | ->]]; simpl; unfold is_RiskLevel; auto.
  - left. reflexivity.
Qed.

(** C5: the code departs from the claim. For the response text [mediumText],
    [{"riskLevel":"Medium","explanation":"moderate clearance"}],
    [assessSafetyRisk] completes successfully with a result whose
    [riskLevel] is the string [Medium], which is none of LOW, MEDIUM and
    HIGH: the type assertion [as RiskLevel] checks nothing. *)
Theorem riskLevel_outside_enum :
  exists result,
    assessSafetyRisk (JSON_parse_on mediumText mediumJson)
      (Resolved (Some mediumText)) 0 (sensorData initialState)
    = (Returned result, []) /\
    riskLevel result = JString "Medium" /\
    ~ is_RiskLevel (riskLevel result).
Proof.
  eexists. split; [reflexivity|]. simpl. split; [reflexivity|].
  unfold is_RiskLevel. intros [H | [H | H]]; discriminate H.
Qed.

(* ================================================================= *)
(** ** Assessment Orchestrator ([handleAssessment]) *)

(** [handleAssessment] is its beginning followed by its settling. *)
Lemma handleAssessment_unfold
  (JSON_parse : string -> option JSValue)
  (reply : EngineReply) (now : Z) (reading : SensorData) (st : AppState) :
  let outcome := assessSafetyRisk JSON_parse reply now reading in
  let settled := handleAssessment_settle (fst outcome) (handleAssessment_begin st) in
  handleAssessment JSON_parse reply now reading st
  = (fst (fst settled), (snd outcome ++ snd (fst settled))%list, snd settled).
Proof.
  unfold handleAssessment.
  destruct (assessSafetyRisk JSON_parse reply now reading) as [outcome fx1].
  simpl.
  destruct (handleAssessment_settle outcome (handleAssessment_begin st))
    as [[st1 fx2] c].
  reflexivity.
Qed.

(** [handleAssessment] never throws. *)
Lemma handleAssessment_completes
  (JSON_parse : string -> option JSValue)
  (reply : EngineReply) (now : Z) (reading : SensorData) (st : AppState) :
  snd (handleAssessment JSON_parse reply now reading st) = Returned tt.
Proof.
  rewrite handleAssessment_unfold. simpl.
  destruct (fst (assessSafetyRisk JSON_parse reply now reading)); reflexivity.
Qed.

(** C1, as stated, fails: when the request is rejected, [handleAssessment]
    does not reject; it completes normally. *)
Lemma failed_call_is_not_propagated :
  call_fails (JSON_parse_on "{}" (JObject [])) (Rejected "network error") /\
  ~ exists message : string,
      snd (handleAssessment (JSON_parse_on "{}" (JObject []))
             (Rejected "network error") 0 (sensorData initialState) initialState)
      = Threw message.
Proof.
  split; [exact I|]. intros [message H]. vm_compute in H. discriminate H.
Qed.

(** C1, amended: for every classification call that fails (the request is
    rejected, or the response text does not parse), [assessSafetyRisk]
    rejects with the error [Failed to assess safety risk.];
    [handleAssessment] catches that error, logs it and completes normally,
    so nothing is propagated to its caller; the busy flag is cleared, and
    the current assessment, History and every other state cell are as they
    were before the call. *)
Theorem failed_call_changes_no_state
  (JSON_parse : string -> option JSValue)
  (reply : EngineReply) (now : Z) (reading : SensorData) (st : AppState) :
  call_fails JSON_parse reply ->
  let out := handleAssessment JSON_parse reply now reading st in
  fst (assessSafetyRisk JSON_parse reply now reading)
    = Threw "Failed to assess safety risk." /\
  snd out = Returned tt /\
  (exists error,
     snd (fst out) = [ConsoleError ["Gemini API Error:"; error];
                      ConsoleError ["Failed to assess safety risk."]]) /\
  isAnalyzing (fst (fst out)) = false /\
  assessment (fst (fst out)) = assessment st /\
  history (fst (fst out)) = history st /\
  fst (fst out) = setIsAnalyzing false st.
Proof.
  intros Hfail out. subst out.
  destruct (assessSafetyRisk_fails JSON_parse reply now reading Hfail) as [error E].
  unfold handleAssessment. rewrite E. simpl.
  repeat split. exists error. reflexivity.
Qed.

Lemma failed_call_changes_no_state_witness :
  call_fails (JSON_parse_on "{}" (JObject [])) (Rejected "network error") /\
  isAnalyzing
    (fst (fst (handleAssessment (JSON_parse_on "{}" (JObject []))
                 (Rejected "network error") 0 (sensorData initialState)
                 initialState))) = false.
Proof.
  assert (H : call_fails (JSON_parse_on "{}" (JObject [])) (Rejected "network error"))
    by exact I.
  split; [exact H|].
  exact (proj1 (proj2 (proj2 (proj2
    (failed_call_changes_no_state (JSON_parse_on "{}" (JObject []))
       (Rejected "network error") 0 (sensorData initialState) initialState H))))).
Defined.

(** A response text that does not parse fails in the same way. *)
Example unparsable_text_changes_no_state :
  let parse := JSON_parse_on "{}" (JObject []) in
  let st := handleAssessment_begin initialState in
  handleAssessment parse (Resolved (Some "Sorry, I cannot help")) 0
    (sensorData initialState) st
  = (setIsAnalyzing false st,
     [ConsoleError ["Gemini API Error:"; "SyntaxError"];
      ConsoleError ["Failed to assess safety risk."]],
     Returned tt).
Proof.
  reflexivity.
Qed.

(** *** A successful call *)

(** [v !== s] holds exactly when [v] is not the string [s]. *)
Lemma strict_neq_string_spec (v : JSValue) (s : string) :
  strict_neq_string v s = true <-> v <> JString s.
Proof.
  destruct v as [ |b|x|t|items|props]; simpl;
    try (split; [discriminate | reflexivity]).
  destruct (String.eqb_spec t s) as [-> | Hne]; simpl.
  - split; [discriminate | congruence].
  - split; [congruence | reflexivity].
Qed.

Lemma strict_neq_string_false (v : JSValue) (s : string) :
  strict_neq_string v s = false <-> v = JString s.
Proof.
  pose proof (strict_neq_string_spec v s) as [H1 H2].
  destruct (strict_neq_string v s).
  - split; [discriminate|]. intros E. exfalso. apply H1; [reflexivity | exact E].
  - split; [|reflexivity]. intros _.
    destruct v as [ |b|x|t|items|props];
      try (exfalso; assert (C : false = true) by (apply H2; discriminate);
           discriminate C).
    destruct (String.eqb_spec t s) as [-> | Hne]; [reflexivity|].
    exfalso. assert (C : false = true) by (apply H2; congruence). discriminate C.
Qed.

(** C6: when [assessSafetyRisk] has returned [result], [handleAssessment]
    calls [playAlertTone] with the result's level, once, if that level is
    not LOW, and does not call it if the level is LOW; it logs nothing. *)
Theorem alert_iff_not_LOW (result : AssessmentResult) (st : AppState) :
  let effects := snd (fst (handleAssessment_settle (Returned result) st)) in
  (riskLevel result <> JString RiskLevel.LOW ->
   effects = [CallPlayAlertTone (riskLevel result)]) /\
  (riskLevel result = JString RiskLevel.LOW -> effects = []).
Proof.
  simpl. split.
  - intros Hne. apply strict_neq_string_spec in Hne. rewrite Hne. reflexivity.
  - intros E. apply strict_neq_string_false in E. rewrite E. reflexivity.
Qed.

(** The same, for a whole call. *)
Lemma handleAssessment_alert
  (JSON_parse : string -> option JSValue)
  (reply : EngineReply) (now : Z) (reading : SensorData) (st : AppState)
  (result : AssessmentResult) :
  fst (assessSafetyRisk JSON_parse reply now reading) = Returned result ->
  let effects := snd (fst (handleAssessment JSON_parse reply now reading st)) in
  (riskLevel result <> JString RiskLevel.LOW ->
   effects = [CallPlayAlertTone (riskLevel result)]) /\
  (riskLevel result = JString RiskLevel.LOW -> effects = []).
Proof.
  intros Hres. simpl. rewrite handleAssessment_unfold. simpl.
  unfold assessSafetyRisk in *.
  destruct (assessSafetyRisk_try JSON_parse reply now reading) as [r|m];
    simpl in *; [|discriminate].
  injection Hres as ->. split.
  - intros Hne. apply strict_neq_string_spec in Hne. rewrite Hne. reflexivity.
  - intros E. apply strict_neq_string_false in E. rewrite E. reflexivity.
Qed.

(** What the call of [playAlertTone] makes audible. *)
Lemma playAlertTone_levels (enabled : bool) :
  playAlertTone enabled (JString RiskLevel.HIGH) = (if enabled then Some UrgentBeep else None) /\
  playAlertTone enabled (JString RiskLevel.MEDIUM) = (if enabled then Some CautionChime else None) /\
  playAlertTone enabled (JString RiskLevel.LOW) = None.
Proof.
  destruct enabled; repeat split.
Qed.

(** *** History *)

(** Truncating the tail before or after prepending is the same. *)
Lemma firstn_app_firstn {A : Type} (a b : list A) :
  forall n m, n <= List.length a + m ->
  firstn n (a ++ firstn m b)%list = firstn n (a ++ b)%list.
Proof.
  induction a as [|x a IH]; intros n m Hle; simpl in *.
  - rewrite firstn_firstn. f_equal. lia.
  - destruct n as [|n]; [reflexivity|]. simpl. f_equal. apply IH. lia.
Qed.

(** What one event does to History and to the current assessment. *)
Lemma step_history (st : AppState) (ev : Event) :
  history (step st ev)
  = match ev with
    | Settled (Returned result) => firstn 20 (result :: history st)
    | _ => history st
    end.
Proof.
  destruct ev as [|[result|message]]; reflexivity.
Qed.

Lemma step_assessment (st : AppState) (ev : Event) :
  assessment (step st ev)
  = match ev with
    | Settled (Returned result) => Some result
    | _ => assessment st
    end.
Proof.
  destruct ev as [|[result|message]]; reflexivity.
Qed.

(** History after a run, from any state. *)
Lemma run_history (evs : list Event) :
  forall st,
    List.length (history st) <= 20 ->
    history (run st evs) = firstn 20 (rev (successes evs) ++ history st)%list.
Proof.
  unfold run.
  induction evs as [|ev evs IH]; intros st Hlen.
  - cbn [fold_left successes rev app]. symmetry. apply firstn_all2. exact Hlen.
  - cbn [fold_left]. rewrite IH.
    + rewrite step_history.
      destruct ev as [|[result|message]]; cbn [successes]; try reflexivity.
      cbn [rev]. rewrite <- app_assoc. cbn [app].
      apply firstn_app_firstn. lia.
    + rewrite step_history.
      destruct ev as [|[result|message]]; try exact Hlen.
      rewrite length_firstn. lia.
Qed.

(** C3: starting from the empty History, after any sequence of calls that
    begin and settle, History is the list of the successful results, newest
    first, cut to its first 20 entries; its length is the number of
    successes or 20, whichever is smaller, so after more than 20 successes
    it holds exactly the 20 most recent results. Each success prepends its
    result and drops what lies beyond position 20. *)
Theorem history_is_20_most_recent (evs : list Event) :
  history (run initialState evs) = firstn 20 (rev (successes evs)) /\
  List.length (history (run initialState evs)) = Nat.min 20 (List.length (successes evs)) /\
  forall (st : AppState) (result : AssessmentResult),
    history (step st (Settled (Returned result))) = firstn 20 (result :: history st).
Proof.
  assert (H : history (run initialState evs) = firstn 20 (rev (successes evs))).
  { rewrite run_history by (cbn; lia).
    change (history initialState) with (@nil AssessmentResult).
    rewrite app_nil_r. reflexivity. }
  split; [exact H|]. split.
  - rewrite H, length_firstn, length_rev. reflexivity.
  - intros st result. reflexivity.
Qed.

(** Twenty-one successes: the oldest is gone. *)
Example history_after_21 :
  let results := map (resultWith "LOW") [1; 2; 3; 4; 5; 6; 7; 8; 9; 10; 11; 12;
                                         13; 14; 15; 16; 17; 18; 19; 20; 21]%Z in
  let evs := map (fun r => Settled (Returned r)) results in
  map timestamp (history (run initialState evs))
  = [21; 20; 19; 18; 17; 16; 15; 14; 13; 12; 11; 10; 9; 8; 7; 6; 5; 4; 3; 2]%Z.
Proof.
  reflexivity.
Qed.

(** C9: a successful call stores its result both as the current assessment
    and at the head of History; hence, in every state reached from the
    initial one, the current assessment is the head of History (and there
    is none exactly when History is empty). *)
Theorem assessment_is_head_of_history :
  (forall (st : AppState) (result : AssessmentResult),
     let st' := fst (fst (handleAssessment_settle (Returned result) st)) in
     assessment st' = Some result /\ hd_error (history st') = Some result) /\
  (forall evs : list Event,
     assessment (run initialState evs) = hd_error (history (run initialState evs))).
Proof.
  split.
  - intros st result. split; reflexivity.
  - intros evs.
    assert (G : forall st, assessment st = hd_error (history st) ->
                assessment (run st evs) = hd_error (history (run st evs))).
    { unfold run. induction evs as [|ev evs IH]; intros st Hst; simpl.
      - exact Hst.
      - apply IH. rewrite step_assessment, step_history.
        destruct ev as [|[result|message]]; try exact Hst. reflexivity. }
    apply G. reflexivity.
Qed.

(** The end-to-end scenario: the initial reading, an engine answering LOW
    with the explanation [clear]. *)
Example end_to_end :
  let out := handleAssessment (JSON_parse_on lowClearText lowClearJson)
               (Resolved (Some lowClearText)) 0 (sensorData initialState) initialState in
  option_map riskLevel (assessment (fst (fst out))) = Some (JString "LOW") /\
  List.length (history (fst (fst out))) = 1 /\
  isAnalyzing (fst (fst out)) = false /\
  snd (fst out) = [].
Proof.
  repeat split.
Qed.

(* ================================================================= *)
(** * Further properties of the sources *)

(** ** [assessSafetyRisk] *)

(** The shape of every result that [assessSafetyRisk] returns. *)
Lemma assessSafetyRisk_returned
  (JSON_parse : string -> option JSValue)
  (reply : EngineReply) (now : Z) (reading : SensorData) (result : AssessmentResult) :
  fst (assessSafetyRisk JSON_parse reply now reading) = Returned result ->
  exists text v rl ex,
    reply = Resolved text /\
    JSON_parse (string_or_else text "{}") = Some v /\
    get_property v "riskLevel" = Returned rl /\
    get_property v "explanation" = Returned ex /\
    result = {| riskLevel := or_else rl (JString RiskLevel.LOW);
                explanation := or_else ex (JString fallbackExplanation);
                timestamp := now;
                data := reading |}.
Proof.
  unfold assessSafetyRisk, assessSafetyRisk_try.
  destruct reply as [reason|text]; [discriminate|].
  destruct (JSON_parse (string_or_else text "{}")) as [v|] eqn:Hv; [|discriminate].
  destruct (get_property v "riskLevel") as [rl|] eqn:Hrl; [|discriminate].
  destruct (get_property v "explanation") as [ex|] eqn:Hex; [|discriminate].
  simpl. intros H. injection H as <-.
  exists text, v, rl, ex. repeat split; assumption.
Qed.

Lemma or_else_truthy (a : option JSValue) (b : JSValue) :
  truthy (Some b) = true -> truthy (Some (or_else a b)) = true.
Proof.
  intros Hb. unfold or_else.
  destruct a as [v|]; [|exact Hb].
  destruct (truthy (Some v)) eqn:E; [exact E | exact Hb].
Qed.


(** X1: [assessSafetyRisk] returns a result exactly when the request
    resolves and its text (or [{}] in place of an absent or empty text)
    parses to a value other than [null]; it then logs nothing. In every
    other case it throws the one error [Failed to assess safety risk.] and
    logs exactly one line; the underlying reason appears in the log only. *)
Theorem assessSafetyRisk_outcomes
  (JSON_parse : string -> option JSValue)
  (reply : EngineReply) (now : Z) (reading : SensorData) :
  ((exists result, assessSafetyRisk JSON_parse reply now reading = (Returned result, []))
   <-> exists text v, reply = Resolved text /\
                      JSON_parse (string_or_else text "{}") = Some v /\ v <> JNull) /\
  ((exists result, assessSafetyRisk JSON_parse reply now reading = (Returned result, []))
   \/ exists error,
        assessSafetyRisk JSON_parse reply now reading
        = (Threw "Failed to assess safety risk.",
           [ConsoleError ["Gemini API Error:"; error]])).
Proof.
  split.
  - split.
    + intros [result H].
      assert (H' : fst (assessSafetyRisk JSON_parse reply now reading) = Returned result)
        by (rewrite H; reflexivity).
      destruct (assessSafetyRisk_returned _ _ _ _ _ H')
        as (text & v & rl & ex & -> & Hv & Hrl & _ & _).
      exists text, v. repeat split; try assumption.
      intros ->. discriminate Hrl.
    + intros (text & v & -> & Hv & Hnull).
      destruct (assessSafetyRisk_parsed JSON_parse text v now reading Hv Hnull)
        as (rl & ex & _ & _ & E).
      eexists. exact E.
  - unfold assessSafetyRisk.
    destruct (assessSafetyRisk_try JSON_parse reply now reading) as [result|error].
    + left. exists result. reflexivity.
    + right. exists error. reflexivity.
Qed.

(** X2: in every result that [assessSafetyRisk] returns, [riskLevel] and
    [explanation] are truthy (never [undefined], [null], empty, zero or
    false), [timestamp] is the value of [Date.now()] and [data] is the
    reading that was passed in. *)
Theorem returned_result_is_filled
  (JSON_parse : string -> option JSValue)
  (reply : EngineReply) (now : Z) (reading : SensorData) (result : AssessmentResult) :
  fst (assessSafetyRisk JSON_parse reply now reading) = Returned result ->
  truthy (Some (riskLevel result)) = true /\
  truthy (Some (explanation result)) = true /\
  timestamp result = now /\
  data result = reading.
Proof.
  intros H.
  destruct (assessSafetyRisk_returned _ _ _ _ _ H)
    as (text & v & rl & ex & _ & _ & _ & _ & ->).
  simpl. repeat split; apply or_else_truthy; reflexivity.
Qed.

Lemma returned_result_is_filled_witness :
  fst (assessSafetyRisk (JSON_parse_on highOnlyText highOnlyJson)
         (Resolved (Some highOnlyText)) 42 (sensorData initialState))
  = Returned {| riskLevel := JString "HIGH";
                explanation := JString fallbackExplanation;
                timestamp := 42;
                data := sensorData initialState |} /\
  truthy (Some (JString "HIGH")) = true.
Proof.
  assert (H : fst (assessSafetyRisk (JSON_parse_on highOnlyText highOnlyJson)
                     (Resolved (Some highOnlyText)) 42 (sensorData initialState))
              = Returned {| riskLevel := JString "HIGH";
                            explanation := JString fallbackExplanation;
                            timestamp := 42;
                            data := sensorData initialState |})
    by reflexivity.
  split; [exact H|].
  exact (proj1 (returned_result_is_filled _ _ _ _ _ H)).
Defined.

(** X4: the verdict is the engine's alone: for one reply, the risk level
    and the explanation of the result, or the error and the log, are the
    same whatever reading and time the call is made with. *)
Theorem verdict_depends_on_reply_only
  (JSON_parse : string -> option JSValue)
  (reply : EngineReply) (now now' : Z) (reading reading' : SensorData) :
  snd (assessSafetyRisk JSON_parse reply now reading)
  = snd (assessSafetyRisk JSON_parse reply now' reading') /\
  match fst (assessSafetyRisk JSON_parse reply now reading),
        fst (assessSafetyRisk JSON_parse reply now' reading') with
  | Returned r, Returned r' =>
      riskLevel r = riskLevel r' /\ explanation r = explanation r'
  | Threw m, Threw m' => m = m'
  | _, _ => False
  end.
Proof.
  unfold assessSafetyRisk, assessSafetyRisk_try.
  destruct reply as [reason|text]; simpl; [split; reflexivity|].
  destruct (JSON_parse (string_or_else text "{}")) as [v|]; simpl;
    [|split; reflexivity].
  destruct (get_property v "riskLevel") as [rl|m]; simpl; [|split; reflexivity].
  destruct (get_property v "explanation") as [ex|m]; simpl; repeat split.
Qed.

(** ** [handleAssessment] over overlapping calls *)

Lemma run_app (st : AppState) (evs more : list Event) :
  run st (evs ++ more)%list = run (run st evs) more.
Proof.
  unfold run. apply fold_left_app.
Qed.

Lemma successes_app (evs more : list Event) :
  successes (evs ++ more)%list = (successes evs ++ successes more)%list.
Proof.
  induction evs as [|ev evs IH]; [reflexivity|].
  destruct ev as [|[result|message]]; simpl; rewrite IH; reflexivity.
Qed.

(** X5: the busy flag tells what the last event was, not whether a call is
    outstanding: after any sequence of calls that begin and settle it is
    raised exactly when the last event is a beginning. So when two calls
    overlap, the flag is lowered as soon as the first of them settles. *)
Theorem busy_flag_follows_last_event (st : AppState) (evs : list Event) :
  isAnalyzing (run st evs)
  = match rev evs with
    | [] => isAnalyzing st
    | Begun :: _ => true
    | Settled _ :: _ => false
    end.
Proof.
  induction evs as [|ev front _] using rev_ind; [reflexivity|].
  rewrite run_app, rev_app_distr. simpl.
  destruct ev as [|[result|message]]; reflexivity.
Qed.

(** Two overlapping calls: one is still outstanding and the flag is down. *)
Example busy_flag_down_with_call_outstanding :
  isAnalyzing (run initialState [Begun; Begun; Settled (Threw "Failed to assess safety risk.")])
  = false.
Proof.
  reflexivity.
Qed.

Lemma run_assessment (evs : list Event) :
  forall st,
    assessment (run st evs)
    = match rev (successes evs) with
      | [] => assessment st
      | result :: _ => Some result
      end.
Proof.
  induction evs as [|ev front IH] using rev_ind; intros st; [reflexivity|].
  rewrite run_app, successes_app, rev_app_distr.
  change (run (run st front) [ev]) with (step (run st front) ev).
  rewrite step_assessment, IH.
  destruct ev as [|[result|message]]; reflexivity.
Qed.

(** X6: the last call to complete wins: after any sequence of overlapping
    calls, the current assessment is the result of the call that settled
    successfully last, whatever the order in which the calls began; there
    is none exactly when no call has succeeded. *)
Theorem last_to_complete_wins (evs : list Event) :
  assessment (run initialState evs) = hd_error (rev (successes evs)).
Proof.
  rewrite run_assessment.
  destruct (rev (successes evs)); reflexivity.
Qed.

(** X7: no call of [handleAssessment], however it ends, changes the sensor
    reading, the auto-simulation switch or the audio switch. *)
Theorem assessments_keep_reading_and_switches (st : AppState) (evs : list Event) :
  sensorData (run st evs) = sensorData st /\
  autoSimulate (run st evs) = autoSimulate st /\
  audioEnabled (run st evs) = audioEnabled st.
Proof.
  revert st. unfold run.
  induction evs as [|ev evs IH]; intros st; [repeat split|].
  destruct (IH (step st ev)) as (H1 & H2 & H3).
  cbn [fold_left]. rewrite H1, H2, H3.
  destruct ev as [|[result|message]]; repeat split.
Qed.

(** X8: History never shrinks and never exceeds 20 entries: whatever
    happens after a sequence of events, History is at least as long as it
    was, and at most 20 long. *)
Theorem history_never_shrinks (evs more : list Event) :
  List.length (history (run initialState evs))
    <= List.length (history (run initialState (evs ++ more)%list)) <= 20.
Proof.
  rewrite !run_history by (cbn; lia).
  change (history initialState) with (@nil AssessmentResult).
  rewrite !app_nil_r, !length_firstn, !length_rev, successes_app, length_app.
  lia.
Qed.

(** X9: the charts plot the most recent successful results in the order
    in which they were obtained: their data is the list of successes,
    oldest first, without all but its last 20 entries. *)
Theorem chartData_is_chronological (evs : list Event) :
  chartData (run initialState evs)
  = skipn (List.length (successes evs) - 20) (successes evs).
Proof.
  unfold chartData. rewrite run_history by (cbn; lia).
  change (history initialState) with (@nil AssessmentResult).
  rewrite app_nil_r, firstn_rev, rev_involutive. reflexivity.
Qed.

(** ** The simulation driver *)



Lemma within_not_nan (lo hi x : number) : within lo hi x = true -> is_nan x = false.
Proof.
  unfold within. intros H. apply andb_prop in H as [H _].
  exact (FloatFacts.leb_not_nan_r _ _ H).
Qed.

Lemma in_simulation_bounds_not_nan (s : SensorData) :
  in_simulation_bounds s -> numeric_channels_not_nan s.
Proof.
  intros (H1 & H2 & H3 & H4).
  repeat split; eapply within_not_nan; eassumption.
Qed.

Lemma newData_in_bounds (prev : SensorData) (r1 r2 r3 r4 : number) :
  numeric_channels_not_nan prev ->
  perturbations_finite r1 r2 r3 r4 ->
  in_simulation_bounds (newData prev r1 r2 r3 r4).
Proof.
  intros (Hl & Hr & Hc & Hv) (H1 & H2 & H3 & H4).
  unfold in_simulation_bounds; simpl.
  repeat split;
    apply clamp_within; try reflexivity;
    apply FloatFacts.add_finite_not_nan; assumption.
Qed.

(** X11: the simulation bounds are an invariant of the simulation: from a
    reading within bounds, any number of ticks with finite perturbations
    leaves the reading within bounds; from a reading that is merely free of
    NaN (a slider can leave the bounds), one tick is enough to be within
    bounds, and the reading then stays there. *)
Theorem ticks_stay_within_bounds
  (draws : list (number * number * number * number)) (s : SensorData) :
  all_perturbations_finite draws ->
  (in_simulation_bounds s -> in_simulation_bounds (ticks draws s)) /\
  (numeric_channels_not_nan s -> draws <> [] -> in_simulation_bounds (ticks draws s)).
Proof.
  unfold all_perturbations_finite, ticks.
  intros Hall.
  assert (G : forall s0, in_simulation_bounds s0 ->
              in_simulation_bounds
                (fold_left (fun prev '(r1, r2, r3, r4) => newData prev r1 r2 r3 r4)
                   draws s0)).
  { induction Hall as [|[[[r1 r2] r3] r4] rest Hd Hrest IH]; intros s0 Hs0.
    - exact Hs0.
    - cbn [fold_left]. apply IH.
      apply newData_in_bounds; [apply in_simulation_bounds_not_nan, Hs0 | exact Hd]. }
  split; [apply G|].
  intros Hnan Hne.
  destruct Hall as [|[[[r1 r2] r3] r4] rest Hd Hrest]; [congruence|].
  cbn [fold_left].
  assert (G' : forall s0, in_simulation_bounds s0 ->
              in_simulation_bounds
                (fold_left (fun prev '(r1, r2, r3, r4) => newData prev r1 r2 r3 r4)
                   rest s0)).
  { clear G Hne. induction Hrest as [|[[[q1 q2] q3] q4] rest' Hd' Hrest' IH];
      intros s0 Hs0.
    - exact Hs0.
    - cbn [fold_left]. apply IH.
      apply newData_in_bounds; [apply in_simulation_bounds_not_nan, Hs0 | exact Hd']. }
  apply G'. apply newData_in_bounds; assumption.
Qed.

Lemma ticks_stay_within_bounds_witness :
  let draws := [(0.5, 0.25, 0.75, 0); (0, 0.5, 0.5, 0.75)]%float in
  let slid := {| leftDistance := 5; rightDistance := 300; closingSpeed := 25;
                 vehicleSpeed := 120; drivingMode := DEPOT |} in
  all_perturbations_finite draws /\
  numeric_channels_not_nan slid /\
  in_simulation_bounds (ticks draws slid).
Proof.
  cbv zeta.
  assert (Hd : all_perturbations_finite
                 [(0.5, 0.25, 0.75, 0); (0, 0.5, 0.5, 0.75)]%float)
    by (repeat constructor).
  assert (Hs : numeric_channels_not_nan
                 {| leftDistance := 5; rightDistance := 300; closingSpeed := 25;
                    vehicleSpeed := 120; drivingMode := DEPOT |})
    by (repeat split).
  split; [exact Hd|]. split; [exact Hs|].
  refine (proj2 (ticks_stay_within_bounds _ _ Hd) Hs _). discriminate.
Defined.

(** ** [updateSensor] *)

(** X13: updates compose as assignments do: a second update of the same
    field overrides the first, and updates of two different fields commute. *)
Theorem updateSensor_composes (st : AppState) :
  (forall (key : SensorKey) (v1 v2 : SensorValue key),
     updateSensor key v2 (updateSensor key v1 st) = updateSensor key v2 st) /\
  (forall (k1 k2 : SensorKey) (v1 : SensorValue k1) (v2 : SensorValue k2),
     k1 <> k2 ->
     updateSensor k2 v2 (updateSensor k1 v1 st)
     = updateSensor k1 v1 (updateSensor k2 v2 st)).
Proof.
  split.
  - intros key v1 v2. destruct key; reflexivity.
  - intros k1 k2 v1 v2 Hne. destruct k1, k2; try reflexivity; congruence.
Qed.

(** X14: writing back the value that a field holds changes nothing, in the
    reading and in the rest of the state. *)
Theorem updateSensor_read_write (st : AppState) (key : SensorKey) :
  updateSensor key (getField key (sensorData st)) st = st.
Proof.
  destruct st as [[l r c v m] a h b au ae]. destruct key; reflexivity.
Qed.

(** ** [playAlertTone] *)

Lemma is_level_spec (level : option JSValue) (s : string) :
  is_level level s = true <-> level = Some (JString s).
Proof.
  unfold is_level. destruct level as [v|]; [|split; discriminate].
  rewrite negb_true_iff, strict_neq_string_false.
  split; [intros ->; reflexivity | intros H; injection H as ->; reflexivity].
Qed.

Lemma is_level_false (level : option JSValue) (s : string) :
  is_level level s = false <-> level <> Some (JString s).
Proof.
  rewrite <- is_level_spec. destruct (is_level level s); split; congruence.
Qed.

(** X15: [playAlertTone] is audible exactly when audio is enabled and the
    level is HIGH (the urgent beep) or MEDIUM (the caution chime); for LOW
    and for every value outside the enumeration it is silent. *)
Theorem playAlertTone_sounds (enabled : bool) (level : JSValue) :
  (playAlertTone enabled level = Some UrgentBeep
   <-> enabled = true /\ level = JString RiskLevel.HIGH) /\
  (playAlertTone enabled level = Some CautionChime
   <-> enabled = true /\ level = JString RiskLevel.MEDIUM) /\
  (playAlertTone enabled level = None
   <-> enabled = false \/
       (level <> JString RiskLevel.HIGH /\ level <> JString RiskLevel.MEDIUM)).
Proof.
  unfold playAlertTone.
  assert (HM : JString RiskLevel.HIGH <> JString RiskLevel.MEDIUM) by discriminate.
  destruct enabled; simpl;
    destruct (strict_neq_string level RiskLevel.HIGH) eqn:EH;
    destruct (strict_neq_string level RiskLevel.MEDIUM) eqn:EM; simpl;
    try (apply strict_neq_string_spec in EH);
    try (apply strict_neq_string_false in EH);
    try (apply strict_neq_string_spec in EM);
    try (apply strict_neq_string_false in EM);
    intuition (try discriminate; try congruence).
Qed.

(** X16: what a settled call makes audible depends on the level alone: a
    successful call sounds the tone of its result's level, if that level
    has one, and a failed call sounds nothing. The test [!== LOW] before
    the call of [playAlertTone] never changes what is heard. *)
Theorem settled_call_tones (enabled : bool) (outcome : Completion AssessmentResult)
  (st : AppState) :
  tonesOf enabled (snd (fst (handleAssessment_settle outcome st)))
  = match outcome with
    | Returned result =>
        match playAlertTone enabled (riskLevel result) with
        | Some tone => [tone]
        | None => []
        end
    | Threw _ => []
    end.
Proof.
  destruct outcome as [result|message]; [|reflexivity].
  simpl.
  destruct (strict_neq_string (riskLevel result) RiskLevel.LOW) eqn:E; simpl.
  - rewrite app_nil_r. reflexivity.
  - apply strict_neq_string_false in E. rewrite E.
    destruct enabled; reflexivity.
Qed.

(** What one invocation does to [audioContextRef]. *)
Lemma playAlertTone_calls_context
  (enabled has : bool) (state : AudioContextState) (t : number) (level : JSValue) :
  fst (playAlertTone_calls enabled has state t level) = has || enabled /\
  filter isNewAudioContext (snd (playAlertTone_calls enabled has state t level))
  = if negb has && enabled then [NewAudioContext] else [].
Proof.
  unfold playAlertTone_calls.
  destruct enabled, has, state,
    (strict_neq_string level RiskLevel.HIGH),
    (strict_neq_string level RiskLevel.MEDIUM); split; reflexivity.
Qed.

(** X17: with audio disabled [playAlertTone] makes no Web Audio call and
    leaves [audioContextRef] alone. With audio enabled it starts an
    oscillator exactly when the level is HIGH or MEDIUM, once, and every
    oscillator it starts is scheduled to stop: 0.3 s after the current time
    for HIGH, 0.5 s for MEDIUM. For any other level it creates and
    connects an oscillator that it never starts. *)
Theorem playAlertTone_calls_sound
  (enabled has : bool) (state : AudioContextState) (t : number) (level : JSValue) :
  let calls := snd (playAlertTone_calls enabled has state t level) in
  (enabled = false ->
   playAlertTone_calls enabled has state t level = (has, [])) /\
  (enabled = true -> In CreateOscillator calls) /\
  filter isOscStart calls
  = match playAlertTone enabled level with
    | Some _ => [OscStart]
    | None => []
    end /\
  filter isOscStop calls
  = match playAlertTone enabled level with
    | Some UrgentBeep => [OscStop (t + 0.3)]
    | Some CautionChime => [OscStop (t + 0.5)]
    | None => []
    end.
Proof.
  unfold playAlertTone_calls, playAlertTone.
  destruct enabled; simpl.
  - split; [discriminate|].
    destruct has, state,
      (strict_neq_string level RiskLevel.HIGH),
      (strict_neq_string level RiskLevel.MEDIUM); simpl;
      repeat split; auto 10.
  - repeat split. discriminate.
Qed.

(** X18: the audio context is created lazily and once: over any sequence
    of invocations, [new AudioContext()] is called exactly once if no
    context existed and some invocation ran with audio enabled, and never
    otherwise. *)
Theorem audio_context_created_once (invocations : list Invocation) (has : bool) :
  fst (playAlertTone_sequence has invocations)
  = has || existsb invocationEnabled invocations /\
  List.length (filter isNewAudioContext (snd (playAlertTone_sequence has invocations)))
  = if negb has && existsb invocationEnabled invocations then 1 else 0.
Proof.
  revert has.
  induction invocations as [|[[[enabled state] t] level] rest IH]; intros has.
  - destruct has; split; reflexivity.
  - cbn [playAlertTone_sequence].
    destruct (playAlertTone_calls_context enabled has state t level) as [Hf Hn].
    destruct (playAlertTone_calls enabled has state t level) as [has1 calls1].
    simpl in Hf, Hn. subst has1.
    destruct (IH (has || enabled)) as [IHf IHn].
    destruct (playAlertTone_sequence (has || enabled) rest) as [has2 calls2].
    simpl in IHf, IHn. cbn [fst snd].
    rewrite filter_app, length_app, Hn, IHn, IHf.
    cbn [existsb]. unfold invocationEnabled at 1 3. cbn [fst].
    destruct has, enabled, (existsb invocationEnabled rest); split; reflexivity.
Qed.

(** ** Rendering *)

(** X19: the colour classes and the icon follow the level in step: HIGH is
    red with the triangle, MEDIUM amber with the circle, LOW emerald with
    the check mark, and every other value, [undefined] and the strings
    outside the enumeration included, is slate with no icon. The border,
    text and dot classes cut out of [getRiskColor] by [split], [pop] and
    [replace] are the third class, the first class, and the first class
    with [bg-] for [text-]. *)
Theorem risk_styles_follow_level (level : option JSValue) :
  (level = Some (JString RiskLevel.HIGH) /\
   riskTextClass level = "text-red-500" /\
   riskBorderClass level = "border-red-500/50" /\
   riskDotClass level = Some "bg-red-500" /\
   getRiskIcon level = Some AlertTriangle) \/
  (level = Some (JString RiskLevel.MEDIUM) /\
   riskTextClass level = "text-amber-500" /\
   riskBorderClass level = "border-amber-500/50" /\
   riskDotClass level = Some "bg-amber-500" /\
   getRiskIcon level = Some AlertCircle) \/
  (level = Some (JString RiskLevel.LOW) /\
   riskTextClass level = "text-emerald-500" /\
   riskBorderClass level = "border-emerald-500/50" /\
   riskDotClass level = Some "bg-emerald-500" /\
   getRiskIcon level = Some CheckCircle2) \/
  (level <> Some (JString RiskLevel.HIGH) /\
   level <> Some (JString RiskLevel.MEDIUM) /\
   level <> Some (JString RiskLevel.LOW) /\
   riskTextClass level = "text-slate-400" /\
   riskBorderClass level = "border-slate-400/50" /\
   riskDotClass level = Some "bg-slate-400" /\
   getRiskIcon level = None).
Proof.
  unfold riskTextClass, riskBorderClass, riskDotClass, getRiskColor, getRiskIcon.
  destruct (is_level level RiskLevel.HIGH) eqn:EH.
  { apply is_level_spec in EH. left. repeat split. exact EH. }
  destruct (is_level level RiskLevel.MEDIUM) eqn:EM.
  { apply is_level_spec in EM. right; left. repeat split. exact EM. }
  destruct (is_level level RiskLevel.LOW) eqn:EL.
  { apply is_level_spec in EL. right; right; left. repeat split. exact EL. }
  apply is_level_false in EH, EM, EL.
  right; right; right. repeat split; assumption.
Qed.

(** X20: the visual alert and the alert tone agree on every level: the red
    overlay is drawn exactly for the levels that sound the urgent beep, the
    amber overlay exactly for those that sound the caution chime, and no
    overlay for those that are silent; without an assessment there is no
    overlay. *)
Theorem visual_alert_matches_tone (result : AssessmentResult) :
  visualAlert None = None /\
  match visualAlert (Some result), playAlertTone true (riskLevel result) with
  | Some RedPulse, Some UrgentBeep => True
  | Some AmberPulse, Some CautionChime => True
  | None, None => True
  | _, _ => False
  end.
Proof.
  split; [reflexivity|].
  unfold visualAlert, playAlertTone, is_level, riskLevelOf. simpl.
  destruct (strict_neq_string (riskLevel result) RiskLevel.HIGH); simpl;
    [|exact I].
  destruct (strict_neq_string (riskLevel result) RiskLevel.MEDIUM); exact I.
Qed.



(** ** The auto-simulation effect *)

Lemma remove_fresh (i : nat) (l : list nat) :
  Forall (fun j => j < i) l -> List.remove Nat.eq_dec i l = l.
Proof.
  intros H. apply notin_remove. intros Hin.
  rewrite Forall_forall in H. specialize (H i Hin). lia.
Qed.

(** What the runs of the effect keep true: the interval of the last run,
    if any, is the only live interval that the component owns. *)
Lemma effectRuns_invariant (t0 : Timers) (flags : list bool) :
  Forall (fun j => j < nextId t0) (live t0) ->
  let s := effectRuns t0 flags in
  nextId t0 <= nextId (snd s) /\
  match fst s with
  | Some id => live (snd s) = id :: live t0 /\ nextId t0 <= id < nextId (snd s)
  | None => live (snd s) = live t0
  end /\
  (fst s = None <-> last flags false = false).
Proof.
  intros Hfresh. cbv zeta. unfold effectRuns.
  induction flags as [|flag front IH] using rev_ind.
  - simpl. repeat split; lia.
  - rewrite fold_left_app, last_last. cbn [fold_left].
    destruct (fold_left rerunEffect front (autoSimulateEffect false t0))
      as [handle t] eqn:E.
    cbn [fst snd] in IH. destruct IH as (Hn & Hl & _).
    unfold rerunEffect, autoSimulateCleanup, clearInterval. cbn [fst snd].
    assert (Hclean : live match handle with
                          | Some i => {| live := List.remove Nat.eq_dec i (live t);
                                         nextId := nextId t |}
                          | None => t
                          end = live t0 /\
                     nextId match handle with
                            | Some i => {| live := List.remove Nat.eq_dec i (live t);
                                           nextId := nextId t |}
                            | None => t
                            end = nextId t).
    { destruct handle as [id|]; [|split; [exact Hl | reflexivity]].
      destruct Hl as [Hl Hid]. cbn [live nextId]. split; [|reflexivity].
      rewrite Hl. simpl. destruct (Nat.eq_dec id id) as [_|Hne]; [|congruence].
      apply remove_fresh. eapply Forall_impl; [|exact Hfresh].
      simpl. intros j Hj. lia. }
    destruct Hclean as [Hc1 Hc2].
    unfold autoSimulateEffect, setInterval.
    destruct flag; cbn [fst snd live nextId].
    + rewrite Hc1, Hc2. repeat split; try lia; discriminate.
    + rewrite Hc2. repeat split; try lia; try assumption.
Qed.

(** X22: the component never holds more than one interval: from any state
    of the browser's timers, after any number of runs of the effect, the
    component's own live interval is the one set by the last run if
    [autoSimulate] was then true, and it has none if [autoSimulate] was
    then false; the other live intervals are untouched, and unmounting
    clears the component's interval. *)
Theorem at_most_one_interval (t0 : Timers) (flags : list bool) :
  Forall (fun j => j < nextId t0) (live t0) ->
  let s := effectRuns t0 flags in
  (last flags false = true ->
   exists id, fst s = Some id /\ live (snd s) = id :: live t0 /\ ~ In id (live t0)) /\
  (last flags false = false -> fst s = None /\ live (snd s) = live t0) /\
  live (unmount s) = live t0.
Proof.
  intros Hfresh s. subst s.
  destruct (effectRuns_invariant t0 flags Hfresh) as (Hn & Hl & Hnone).
  destruct (effectRuns t0 flags) as [handle t]. cbn [fst snd] in *.
  assert (Hnotin : forall id, nextId t0 <= id -> ~ In id (live t0)).
  { intros id Hid Hin. rewrite Forall_forall in Hfresh.
    specialize (Hfresh id Hin). lia. }
  destruct handle as [id|].
  - destruct Hl as [Hl Hid]. split; [|split].
    + intros _. exists id. split; [reflexivity|]. split; [exact Hl|].
      apply Hnotin. lia.
    + intros Hlast. apply Hnone in Hlast. discriminate Hlast.
    + unfold unmount, autoSimulateCleanup, clearInterval. cbn [fst snd live].
      rewrite Hl. simpl. destruct (Nat.eq_dec id id) as [_|Hne]; [|congruence].
      apply remove_fresh. eapply Forall_impl; [|exact Hfresh].
      simpl. intros j Hj. lia.
  - split; [|split].
    + intros Hlast.
      assert (C : last flags false = false) by (apply Hnone; reflexivity).
      congruence.
    + intros _. split; [reflexivity | exact Hl].
    + exact Hl.
Qed.

Lemma at_most_one_interval_witness :
  let t0 := {| live := [7; 3]; nextId := 8 |} in
  Forall (fun j => j < nextId t0) (live t0) /\
  live (unmount (effectRuns t0 [true; true; false; true])) = live t0.
Proof.
  cbv zeta.
  assert (H : Forall (fun j => j < nextId {| live := [7; 3]; nextId := 8 |})
                (live {| live := [7; 3]; nextId := 8 |}))
    by (repeat constructor).
  split; [exact H|].
  exact (proj2 (proj2 (at_most_one_interval {| live := [7; 3]; nextId := 8 |}
                         [true; true; false; true] H))).
Defined.

(** ** Witnesses of earlier lemmas *)

Lemma riskLevel_in_enum_when_engine_complies_witness :
  JSON_parse_on highOnlyText highOnlyJson (string_or_else (Some highOnlyText) "{}")
    = Some highOnlyJson /\
  is_RiskLevel (JString "HIGH").
Proof.
  assert (H1 : JSON_parse_on highOnlyText highOnlyJson
                 (string_or_else (Some highOnlyText) "{}") = Some highOnlyJson)
    by reflexivity.
  split; [exact H1|].
  refine (riskLevel_in_enum_when_engine_complies
            (JSON_parse_on highOnlyText highOnlyJson) (Some highOnlyText) 0
            (sensorData initialState)
            {| riskLevel := JString "HIGH";
               explanation := JString fallbackExplanation;
               timestamp := 0;
               data := sensorData initialState |}
            [("riskLevel", JString "HIGH")] H1 _ _).
  - right. right. reflexivity.
  - reflexivity.
Defined.
